(** * AI Content Assistant MCP server: a shallow embedding of [index.js]

    The server registers one MCP tool, [generateContentOutline], whose
    handler splices the caller's topic into a fixed prompt, sends the prompt
    to a generative-text backend and maps the backend's answer (or failure)
    to the tool's result.  Around it sit the start-up code (credential check,
    client construction) and an Express application with a health route.

    Strings are modelled as [string] (a sequence of code units), JavaScript
    objects as finite maps from property names to values, and the effects of
    the handler (the outbound backend call, [console.error], exceptions) by
    a state-and-exception monad over an explicit [World]. *)

From Stdlib Require Import ZArith NArith String Ascii List Lia.
From stdpp Require Import base option gmap strings list pretty.

Open Scope string_scope.

(** ** JavaScript values *)

Module Js.

(** The fragment of JavaScript values the program manipulates.  [VError m]
    is an [Error] object with [message] m; [VObject] a plain object. *)
#[warnings="-register-all"]
Inductive value : Type :=
| VUndefined
| VNull
| VBool (b : bool)
| VNumber (n : Z)
| VString (s : string)
| VError (message : string)
| VObject (fields : gmap string value).

(** [new Error(message)] *)
Definition new_Error (message : string) : value := VError message.

(** [!v], through JavaScript's ToBoolean. *)
Definition truthy (v : value) : bool :=
  match v with
  | VUndefined | VNull => false
  | VBool b => b
  | VNumber n => negb (n =? 0)%Z
  | VString s => negb (String.eqb s EmptyString)
  | VError _ | VObject _ => true
  end.

(** [a || b] *)
Definition or_else (a b : value) : value := if truthy a then a else b.

Definition is_string (v : value) : bool :=
  match v with VString _ => true | _ => false end.

(** Property read [o.k]: [undefined] when [o] has no such property. *)
Definition get (o : gmap string value) (k : string) : value :=
  default VUndefined (o !! k).

(** The string a value contributes to a template literal. *)
Definition to_template_string (v : value) : string :=
  match v with
  | VUndefined => "undefined"
  | VNull => "null"
  | VBool true => "true"
  | VBool false => "false"
  | VNumber n => pretty n
  | VString s => s
  | VError m => "Error: " +:+ m
  | VObject _ => "[object Object]"
  end.

(** How a statement or call completes: normally with a value, or abruptly
    with a thrown one.  An awaited promise completes normally when it is
    fulfilled and throws its reason when it is rejected. *)
Inductive completion (A : Type) : Type :=
| Normal (a : A)
| Throws (e : value).
Arguments Normal {A} a.
Arguments Throws {A} e.

End Js.
Import Js.

(** ** The prompt template (index.js, lines 49-73) *)

Definition nl : string := String "010" EmptyString.
Definition dquote : string := String "034" EmptyString.

(** The tool's validated input, [{ topic: string }]. *)
Record ToolRequest : Type := { topic : string }.

(** The template literal bound to [const prompt]: the literal chunks of the
    source, in order, with [input.topic] spliced in at each [${input.topic}].
    A blank line of the template is a bare [nl]. *)
Definition prompt (input : ToolRequest) : string :=
  nl +:+
  "        You are an expert content strategist and editor." +:+ nl +:+
  "        A user wants to write a blog post about the following topic: " +:+ dquote +:+ topic input +:+ dquote +:+ "." +:+ nl +:+
  nl +:+
  "        Your task is to generate a comprehensive, well-structured content outline for this blog post." +:+ nl +:+
  "        The outline should be logical, flow well, and cover the key aspects of the topic." +:+ nl +:+
  "        Use a multi-level format with headings and bullet points." +:+ nl +:+
  nl +:+
  "        Example Structure:" +:+ nl +:+
  "        I. Introduction" +:+ nl +:+
  "           - Hook: Start with a compelling statistic or question." +:+ nl +:+
  "           - Briefly introduce the topic and its importance." +:+ nl +:+
  "           - State the main argument or what the reader will learn." +:+ nl +:+
  "        II. Main Point 1" +:+ nl +:+
  "           - Sub-point A" +:+ nl +:+
  "           - Sub-point B" +:+ nl +:+
  "        III. Main Point 2" +:+ nl +:+
  "           - Sub-point A" +:+ nl +:+
  "           - Sub-point B" +:+ nl +:+
  "        IV. Conclusion" +:+ nl +:+
  "           - Summarize the key points." +:+ nl +:+
  "           - Offer a final thought or call to action." +:+ nl +:+
  nl +:+
  "        Generate the outline now for the topic: " +:+ dquote +:+ topic input +:+ dquote +:+ nl +:+
  "      ".

(** The three constant stretches of the template: before the first
    substitution point, between the two, and after the second. *)
Definition template_head : string :=
  nl +:+
  "        You are an expert content strategist and editor." +:+ nl +:+
  "        A user wants to write a blog post about the following topic: " +:+ dquote.

Definition template_middle : string :=
  dquote +:+ "." +:+ nl +:+
  nl +:+
  "        Your task is to generate a comprehensive, well-structured content outline for this blog post." +:+ nl +:+
  "        The outline should be logical, flow well, and cover the key aspects of the topic." +:+ nl +:+
  "        Use a multi-level format with headings and bullet points." +:+ nl +:+
  nl +:+
  "        Example Structure:" +:+ nl +:+
  "        I. Introduction" +:+ nl +:+
  "           - Hook: Start with a compelling statistic or question." +:+ nl +:+
  "           - Briefly introduce the topic and its importance." +:+ nl +:+
  "           - State the main argument or what the reader will learn." +:+ nl +:+
  "        II. Main Point 1" +:+ nl +:+
  "           - Sub-point A" +:+ nl +:+
  "           - Sub-point B" +:+ nl +:+
  "        III. Main Point 2" +:+ nl +:+
  "           - Sub-point A" +:+ nl +:+
  "           - Sub-point B" +:+ nl +:+
  "        IV. Conclusion" +:+ nl +:+
  "           - Summarize the key points." +:+ nl +:+
  "           - Offer a final thought or call to action." +:+ nl +:+
  nl +:+
  "        Generate the outline now for the topic: " +:+ dquote.

Definition template_tail : string :=
  dquote +:+ nl +:+ "      ".

(** ** Counting embedded copies of a string *)

(** Number of positions of [hay] at which [needle] starts. *)
Fixpoint occurrences (needle hay : string) : nat :=
  (if String.prefix needle hay then 1 else 0) +
  match hay with
  | EmptyString => 0
  | String _ rest => occurrences needle rest
  end.

(** [f] is a fixed text with exactly [n] holes, each filled with the
    argument as it is: [f t = s0 ++ t ++ s1 ++ ... ++ t ++ sn] for constant
    [s0 .. sn]. *)
Fixpoint fill (first : string) (rest : list string) (t : string) : string :=
  match rest with
  | [] => first
  | s :: rest' => first +:+ t +:+ fill s rest' t
  end.

Definition embeds_exactly (n : nat) (f : string -> string) : Prop :=
  exists first rest, length rest = n /\ forall t, f t = fill first rest t.


(** ** Zod schemas (the fragment the tool declares)

    [z.string()] accepts exactly the strings, whatever their length;
    [z.object(shape)] accepts an object each of whose shape keys holds a
    value its schema accepts, and yields the object restricted to the shape
    keys.  [describe] attaches documentation and leaves the schema alone. *)

Module Zod.

#[warnings="-register-all"]
Inductive schema : Type :=
| ZString
| ZObject (shape : list (string * schema)).

Definition describe (s : schema) (description : string) : schema := s.

Fixpoint parse (s : schema) (v : value) : option value :=
  match s with
  | ZString => if is_string v then Some v else None
  | ZObject shape =>
      match v with
      | VObject fields =>
          (fix parse_shape (shape : list (string * schema))
             : option (gmap string value) :=
             match shape with
             | [] => Some ∅
             | (k, sk) :: shape' =>
                 match parse sk (get fields k), parse_shape shape' with
                 | Some vk, Some rest => Some (<[k := vk]> rest)
                 | _, _ => None
                 end
             end) shape
          ≫= λ parsed, Some (VObject parsed)
      | _ => None
      end
  end.

End Zod.

(** The [input] and [output] schemas of the tool (index.js, lines 36-42). *)
Definition input_schema : Zod.schema :=
  Zod.ZObject
    [("topic",
      Zod.describe Zod.ZString
        ("The main topic or title of the content you want to write. For example: "
         +:+ dquote +:+ "the future of artificial intelligence" +:+ dquote +:+ "."))].

Definition output_schema : Zod.schema :=
  Zod.ZObject
    [("outline",
      Zod.describe Zod.ZString "The formatted, multi-level content outline.")].

(** The handler's view of an input that passed [input_schema]. *)
Definition as_request (v : value) : option ToolRequest :=
  match Zod.parse input_schema v with
  | Some (VObject fields) =>
      match get fields "topic" with
      | VString s => Some {| topic := s |}
      | _ => None
      end
  | _ => None
  end.

(** ** The backend client

    [model] is a client object of the [@google/generative-ai] package, which
    is not part of this repository; it is taken as a parameter with the
    interface the handler uses: [generateContent(prompt)] returns a promise
    of a result whose [response] has a method [text()] that returns a string
    or throws.  The backend may answer differently from call to call, so it
    carries a state of its own. *)

Record GenerateContentResponse : Type :=
  { text : completion string }.

Record GenerateContentResult : Type :=
  { response : GenerateContentResponse }.

(** What one handler run can touch: the backend, the requests sent to it
    (oldest first) and what was written with [console.error] (one argument
    list per call, oldest first). *)
Record World (B : Type) : Type :=
  { backend : B;
    requests : list string;
    console_error_log : list (list value) }.
Arguments backend {B} w.
Arguments requests {B} w.
Arguments console_error_log {B} w.

(** Computations over a world that may throw. *)
Definition M (B A : Type) : Type := World B -> completion A * World B.

#[global] Instance M_ret {B} : MRet (M B) :=
  fun A a w => (Normal a, w).

#[global] Instance M_bind {B} : MBind (M B) :=
  fun A A' f m w =>
    match m w with
    | (Normal a, w') => f a w'
    | (Throws e, w') => (Throws e, w')
    end.

#[global] Instance M_throw {B} : MThrow value (M B) :=
  fun A e w => (Throws e, w).

(** [try { body } catch (error) { handler error }] *)
Definition try_catch {B A} (body : M B A) (handler : value -> M B A) : M B A :=
  fun w =>
    match body w with
    | (Normal a, w') => (Normal a, w')
    | (Throws e, w') => handler e w'
    end.

(** A call that touches nothing and completes as given. *)
Definition call {B A} (c : completion A) : M B A := fun w => (c, w).

(** [console.error(...args)] *)
Definition console_error {B} (args : list value) : M B unit :=
  fun w =>
    (Normal tt,
     {| backend := backend w;
        requests := requests w;
        console_error_log := console_error_log w ++ [args] |}).

(** ** The [generateContentOutline] handler (index.js, lines 45-87) *)

Section Handler.

Context {B : Type}.
Variable generateContent : string -> B -> completion GenerateContentResult * B.

(** Handing [prompt] to the client: the request leaves the process. *)
Definition send_request (prompt : string) (w : World B) : World B :=
  {| backend := backend w;
     requests := requests w ++ [prompt];
     console_error_log := console_error_log w |}.

(** The awaited call has settled as [c], leaving the backend in [b]. *)
Definition settle {A} (c : completion A) (b : B) : M B A :=
  fun w =>
    (c, {| backend := b;
           requests := requests w;
           console_error_log := console_error_log w |}).

(** [await model.generateContent(prompt)] *)
Definition model_generateContent (prompt : string) : M B GenerateContentResult :=
  fun w =>
    let '(c, b) := generateContent prompt (backend w) in
    settle c b (send_request prompt w).

(** The [catch (error)] block. *)
Definition on_error (error : value) : M B value :=
  console_error [VString "Error calling Gemini API:"; error];;
  mthrow (new_Error "There was an issue contacting the AI content strategist.").

Definition generateContentOutline (input : ToolRequest) : M B value :=
  try_catch
    (let prompt := prompt input in
     result ← model_generateContent prompt;
     let response := response result in
     outlineText ← call (text response);
     mret (VObject {[ "outline" := VString outlineText ]}))
    on_error.

(** The handler from the point where the awaited call has settled as [c]:
    the rest of the [try] block, under the same [catch]. *)
Definition resume (c : completion GenerateContentResult) (b : B) : M B value :=
  try_catch
    (result ← settle c b;
     let response := response result in
     outlineText ← call (text response);
     mret (VObject {[ "outline" := VString outlineText ]}))
    on_error.

End Handler.

(** ** Reading a backend answer *)

(** The error every failed invocation is rejected with. *)
Definition backend_error : value :=
  new_Error "There was an issue contacting the AI content strategist.".

(** The error behind a failed backend call: the rejection reason of the
    awaited promise, or what [text()] threw. *)
Definition failure_of (c : completion GenerateContentResult) : option value :=
  match c with
  | Throws e => Some e
  | Normal result =>
      match text (response result) with
      | Throws e => Some e
      | Normal _ => None
      end
  end.

(** The text a successful backend call yields. *)
Definition text_of (c : completion GenerateContentResult) : option string :=
  match c with
  | Throws _ => None
  | Normal result =>
      match text (response result) with
      | Throws _ => None
      | Normal t => Some t
      end
  end.

(** ** Invocations in flight together

    The host may call the handler again while earlier calls are suspended at
    their [await].  Each invocation runs from its call to the [await] in one
    piece, and later from the settled promise to its end in one piece; the
    pieces of different invocations interleave freely, and the backend may
    answer in any order and with any result. *)

Inductive task : Type :=
| Called (input : ToolRequest)
| Awaiting (input : ToolRequest) (prompt : string)
| Settled (input : ToolRequest) (outcome : completion value).

Definition task_input (t : task) : ToolRequest :=
  match t with
  | Called input | Awaiting input _ | Settled input _ => input
  end.

Definition started (t : task) : bool :=
  match t with Called _ => false | _ => true end.

Inductive step {B : Type} : list task * World B -> list task * World B -> Prop :=
| step_start pool w i input :
    pool !! i = Some (Called input) ->
    step (pool, w)
         (<[i := Awaiting input (prompt input)]> pool,
          send_request (prompt input) w)
| step_settle pool w i input p c b :
    pool !! i = Some (Awaiting input p) ->
    step (pool, w)
         (<[i := Settled input (resume c b w).1]> pool, (resume c b w).2).

Inductive steps {B : Type} : list task * World B -> list task * World B -> Prop :=
| steps_refl s : steps s s
| steps_step s1 s2 s3 : steps s1 s2 -> step s2 s3 -> steps s1 s3.

(** The prompts of the invocations of [pool] that have reached their
    [await], in pool order. *)
Definition sent (pool : list task) : list string :=
  omap (fun t => if started t then Some (prompt (task_input t)) else None) pool.

(** What an invocation may hold at each stage: at the [await], the prompt
    built from its own input; at the end, a response object or the backend
    error. *)
Definition task_ok (t : task) : Prop :=
  match t with
  | Called _ => True
  | Awaiting input p => p = prompt input
  | Settled _ outcome =>
      (exists T, outcome = Normal (VObject {[ "outline" := VString T ]}))
      \/ outcome = Throws backend_error
  end.

(** The invariant of a run that began with the invocations [inputs] in the
    world [w0]. *)
Definition pool_inv {B : Type} (inputs : list ToolRequest) (w0 : World B)
    (s : list task * World B) : Prop :=
  task_input <$> s.1 = inputs
  /\ requests s.2 ≡ₚ (requests w0 ++ sent s.1)%list
  /\ Forall task_ok s.1.

(** ** Process start-up and the Express application (index.js, lines 10-28
    and 89-98) *)

Record Request : Type :=
  { method : string;
    path : string;
    headers : gmap string string (* [req.headers], names in lower case *) }.

Record Response : Type :=
  { statusCode : Z;
    res_headers : gmap string string;
    body : option string }.

(** *** The entity tag of a body

    [res.send] tags what it sends with Express's default weak ETag:
    [W/"<length in hex>-<first 27 characters of the base64 SHA-1>"]. *)

Module Sha1.

Definition w32 (x : N) : N := N.land x 0xFFFFFFFF.

Definition rotl (n x : N) : N :=
  w32 (N.lor (N.shiftl x n) (N.shiftr x (32 - n))).

Definition not32 (x : N) : N := N.lxor x 0xFFFFFFFF.

Definition be64 (n : N) : list N :=
  map (fun i => N.land (N.shiftr n (8 * i)) 0xFF) [7; 6; 5; 4; 3; 2; 1; 0]%N.

Definition be32 (x : N) : list N :=
  map (fun i => N.land (N.shiftr x (8 * i)) 0xFF) [3; 2; 1; 0]%N.

(** The message, a 1 bit, zeros up to 56 modulo 64 bytes, and the length
    in bits. *)
Definition pad (msg : list N) : list N :=
  let l := length msg in
  (msg ++ [0x80%N] ++ repeat 0%N ((64 + 55 - l mod 64) mod 64)
       ++ be64 (8 * N.of_nat l))%list.

Fixpoint words (bs : list N) : list N :=
  match bs with
  | a :: b :: c :: d :: rest =>
      (N.lor (N.shiftl a 24) (N.lor (N.shiftl b 16) (N.lor (N.shiftl c 8) d)))
        :: words rest
  | _ => []
  end.

Fixpoint blocks (fuel : nat) (ws : list N) : list (list N) :=
  match fuel, ws with
  | S fuel', _ :: _ => take 16 ws :: blocks fuel' (drop 16 ws)
  | _, _ => []
  end.

(** The message schedule, newest word first. *)
Fixpoint expand (n : nat) (rev_ws : list N) : list N :=
  match n with
  | O => rev_ws
  | S n' =>
      let w i := nth i rev_ws 0%N in
      expand n' (rotl 1 (N.lxor (N.lxor (w 2) (w 7)) (N.lxor (w 13) (w 15)))
                   :: rev_ws)
  end.

Definition schedule (block : list N) : list N := rev (expand 64 (rev block)).

Definition state : Type := N * N * N * N * N.

Definition round (i : nat) (st : state) (w : N) : state :=
  let '(a, b, c, d, e) := st in
  let '(f, k) :=
    if (i <? 20)%nat then
      (N.lor (N.land b c) (N.land (not32 b) d), 0x5A827999%N)
    else if (i <? 40)%nat then
      (N.lxor b (N.lxor c d), 0x6ED9EBA1%N)
    else if (i <? 60)%nat then
      (N.lor (N.lor (N.land b c) (N.land b d)) (N.land c d), 0x8F1BBCDC%N)
    else
      (N.lxor b (N.lxor c d), 0xCA62C1D6%N) in
  (w32 (rotl 5 a + f + e + k + w), a, rotl 30 b, c, d).

Fixpoint rounds (i : nat) (ws : list N) (st : state) : state :=
  match ws with
  | [] => st
  | w :: ws' => rounds (S i) ws' (round i st w)
  end.

Definition compress (h : state) (block : list N) : state :=
  let '(h0, h1, h2, h3, h4) := h in
  let '(a, b, c, d, e) := rounds 0 (schedule block) h in
  (w32 (h0 + a), w32 (h1 + b), w32 (h2 + c), w32 (h3 + d), w32 (h4 + e)).

Definition initial : state :=
  (0x67452301, 0xEFCDAB89, 0x98BADCFE, 0x10325476, 0xC3D2E1F0)%N.

Definition digest (msg : list N) : list N :=
  let ws := words (pad msg) in
  let '(h0, h1, h2, h3, h4) :=
    fold_left compress (blocks (length ws) ws) initial in
  (be32 h0 ++ be32 h1 ++ be32 h2 ++ be32 h3 ++ be32 h4)%list.

End Sha1.

Module Base64.

Definition alphabet : string :=
  "ABCDEFGHIJKLMNOPQRSTUVWXYZabcdefghijklmnopqrstuvwxyz0123456789+/".

Definition char (i : N) : string :=
  match String.get (N.to_nat i) alphabet with
  | Some c => String c EmptyString
  | None => EmptyString
  end.

Fixpoint encode (bs : list N) : string :=
  match bs with
  | a :: b :: c :: rest =>
      char (N.shiftr a 2)
      +:+ char (N.lor (N.shiftl (N.land a 3) 4) (N.shiftr b 4))
      +:+ char (N.lor (N.shiftl (N.land b 15) 2) (N.shiftr c 6))
      +:+ char (N.land c 63)
      +:+ encode rest
  | [a; b] =>
      char (N.shiftr a 2)
      +:+ char (N.lor (N.shiftl (N.land a 3) 4) (N.shiftr b 4))
      +:+ char (N.shiftl (N.land b 15) 2)
      +:+ "="
  | [a] =>
      char (N.shiftr a 2) +:+ char (N.shiftl (N.land a 3) 4) +:+ "=="
  | [] => EmptyString
  end.

End Base64.

Module Etag.

(** [n.toString(16)] *)
Fixpoint hex_go (fuel : nat) (n : N) (acc : string) : string :=
  match fuel with
  | O => acc
  | S fuel' =>
      let digits :=
        match String.get (N.to_nat (N.land n 15)) "0123456789abcdef" with
        | Some c => String c acc
        | None => acc
        end in
      if (N.shiftr n 4 =? 0)%N then digits else hex_go fuel' (N.shiftr n 4) digits
  end.

Definition hex (n : nat) : string := hex_go (S n) (N.of_nat n) EmptyString.

Definition bytes (s : string) : list N :=
  map N_of_ascii (list_ascii_of_string s).

Definition entitytag (entity : string) : string :=
  dquote +:+ hex (String.length entity) +:+ "-"
  +:+ String.substring 0 27 (Base64.encode (Sha1.digest (bytes entity)))
  +:+ dquote.

(** The application's default ['etag fn']. *)
Definition wetag (body : string) : string := "W/" +:+ entitytag body.

End Etag.

(** *** Freshness of a conditional request (as in Express 4)

    [fresh reqHeaders etag] is [req.fresh] for a response that carries the
    entity tag [etag] and no [Last-Modified]; [res.send] sets none, so a
    request with [If-Modified-Since] is never fresh. *)

Module Fresh.

(** A header that is there and is not the empty string. *)
Definition given (h : option string) : bool :=
  match h with Some (String _ _) => true | _ => false end.


(** White space as the regular expression class [\s] sees it. *)
Definition is_space (c : ascii) : bool :=
  match N_of_ascii c with
  | 9 | 10 | 11 | 12 | 13 | 32 | 160 => true
  | _ => false
  end%N.

Fixpoint drop_space (s : string) : string :=
  match s with
  | String c s' => if is_space c then drop_space s' else s
  | EmptyString => EmptyString
  end.

Definition trim (s : string) : string :=
  String.rev (drop_space (String.rev (drop_space s))).

(** The stretches between commas; [cur] is the current one, reversed. *)
Fixpoint split_commas (cur s : string) : list string :=
  match s with
  | EmptyString => [String.rev cur]
  | String c s' =>
      if Ascii.eqb c "," then String.rev cur :: split_commas EmptyString s'
      else split_commas (String c cur) s'
  end.

(** [/(?:^|,)\s*?no-cache\s*?(?:,|$)/.test(cacheControl)] *)
Definition no_cache (cacheControl : string) : bool :=
  existsb (fun part => String.eqb (trim part) "no-cache")
          (split_commas EmptyString cacheControl).

(** [parseTokenList]: the comma-separated tokens, leading spaces of each
    dropped, each ending at its last character that is not a space. *)
Fixpoint parseTokenList_go (str rest : string) (i start end_ : nat)
    (tokens : list string) : list string :=
  match rest with
  | EmptyString => tokens ++ [String.substring start (end_ - start) str]
  | String c rest' =>
      if Ascii.eqb c " " then
        if Nat.eqb start end_
        then parseTokenList_go str rest' (S i) (S i) (S i) tokens
        else parseTokenList_go str rest' (S i) start end_ tokens
      else if Ascii.eqb c "," then
        parseTokenList_go str rest' (S i) (S i) (S i)
          (tokens ++ [String.substring start (end_ - start) str])
      else parseTokenList_go str rest' (S i) start (S i) tokens
  end.

Definition parseTokenList (str : string) : list string :=
  parseTokenList_go str str 0 0 0 [].

Definition etag_matches (etag match_ : string) : bool :=
  String.eqb match_ etag
  || String.eqb match_ ("W/" +:+ etag)
  || String.eqb ("W/" +:+ match_) etag.

Definition fresh (reqHeaders : gmap string string) (etag : string) : bool :=
  let modifiedSince := reqHeaders !! "if-modified-since" in
  let noneMatch := reqHeaders !! "if-none-match" in
  if negb (given modifiedSince) && negb (given noneMatch) then false
  else if from_option no_cache false (reqHeaders !! "cache-control") then false
  else if given noneMatch
          && negb (String.eqb (default EmptyString noneMatch) "*")
          && (String.eqb etag EmptyString
              || negb (existsb (etag_matches etag)
                         (parseTokenList (default EmptyString noneMatch))))
       then false
  else if given modifiedSince then false
  else true.

End Fresh.

(** [res] as a handler gets it, before anything is sent: the status is
    Express's default 200, no header was set by the program, and [res.req]
    is the request. *)
Record Res : Type :=
  { res_req : Request }.

(** [req.fresh], for a response with status 200 and entity tag [etag]. *)
Definition req_fresh (req : Request) (etag : string) : bool :=
  (String.eqb (method req) "GET" || String.eqb (method req) "HEAD")
  && Fresh.fresh (headers req) etag.

(** [res.send(text)] for a string: the type defaults to HTML in UTF-8, the
    length and the weak ETag of the text are set, and a request that is
    fresh against that ETag gets 304, without the type, the length and the
    text.  A HEAD request gets no body. *)
Definition send (text : string) (res : Res) : Response :=
  let req := res_req res in
  let etag := Etag.wetag text in
  let not_modified := req_fresh req etag in
  let chunk := if not_modified then EmptyString else text in
  {| statusCode := if not_modified then 304 else 200;
     res_headers :=
       if not_modified then
         {[ "x-powered-by" := "Express"; "etag" := etag ]}
       else
         {[ "x-powered-by" := "Express";
            "content-type" := "text/html; charset=utf-8";
            "content-length" := pretty (String.length text);
            "etag" := etag ]};
     body := if String.eqb (method req) "HEAD" then None else Some chunk |}.

(** The entries of the application's routing stack. *)
Inductive layer : Type :=
| Use (mount : string) (* [app.use(mount, mcp.router)] *)
| Get (route : string) (handler : Request -> Res -> Response).

(** [(req, res) => res.send(...)], the handler of [app.get('/')]. *)
Definition health_check (req : Request) (res : Res) : Response :=
  send "AI Content Assistant MCP Server is running and ready to help!" res.

(** A mounted router sees the paths at or below its mount point. *)
Definition under_mount (mount path : string) : bool :=
  String.eqb path mount || String.prefix (mount +:+ "/") path.

(** A tool as registered with the MCP server. *)
Record Tool : Type :=
  { tool_name : string;
    tool_description : string;
    tool_input : Zod.schema;
    tool_output : Zod.schema }.

(** The arguments of [mcp.tool(...)], the handler apart. *)
Definition generateContentOutline_tool : Tool :=
  {| tool_name := "generateContentOutline";
     tool_description :=
       "Takes a topic and generates a detailed, structured outline for a blog post or essay. Perfect for overcoming writer's block.";
     tool_input := input_schema;
     tool_output := output_schema |}.

(** The state of the process as the top-level code builds it. *)
Record Process : Type :=
  { stderr : list (list value);
    stdout : list (list value);
    exit_code : option Z;
    client_key : option value;       (* key of the backend client *)
    model_name : option string;      (* the generative model asked for *)
    mcp_server : option (string * string);
    tools : list Tool;
    stack : list layer;
    listening : option value }.

Definition initial_process : Process :=
  {| stderr := []; stdout := []; exit_code := None; client_key := None;
     model_name := None; mcp_server := None; tools := []; stack := [];
     listening := None |}.

(** [process.env.NAME] *)
Definition env_get (env : gmap string string) (name : string) : value :=
  match env !! name with
  | Some s => VString s
  | None => VUndefined
  end.

Module Startup.

(** Top-level statements: each runs on the process state and either lets
    the next one run or ends the process ([None]). *)
Definition P (A : Type) : Type := Process -> option A * Process.

#[global] Instance P_ret : MRet P :=
  fun A a p => (Some a, p).

#[global] Instance P_bind : MBind P :=
  fun A A' f m p =>
    match m p with
    | (Some a, p') => f a p'
    | (None, p') => (None, p')
    end.

(** [process.exit(code)]: nothing after it runs. *)
Definition process_exit (code : Z) : P unit :=
  fun p =>
    (None,
     {| stderr := stderr p; stdout := stdout p; exit_code := Some code;
        client_key := client_key p; model_name := model_name p;
        mcp_server := mcp_server p; tools := tools p; stack := stack p;
        listening := listening p |}).

Definition console_error (args : list value) : P unit :=
  fun p =>
    (Some tt,
     {| stderr := stderr p ++ [args]; stdout := stdout p;
        exit_code := exit_code p; client_key := client_key p;
        model_name := model_name p; mcp_server := mcp_server p;
        tools := tools p; stack := stack p; listening := listening p |}).

Definition console_log (args : list value) : P unit :=
  fun p =>
    (Some tt,
     {| stderr := stderr p; stdout := stdout p ++ [args];
        exit_code := exit_code p; client_key := client_key p;
        model_name := model_name p; mcp_server := mcp_server p;
        tools := tools p; stack := stack p; listening := listening p |}).

(** [new GoogleGenerativeAI(key)] *)
Definition new_GoogleGenerativeAI (key : value) : P unit :=
  fun p =>
    (Some tt,
     {| stderr := stderr p; stdout := stdout p; exit_code := exit_code p;
        client_key := Some key; model_name := model_name p;
        mcp_server := mcp_server p; tools := tools p; stack := stack p;
        listening := listening p |}).

(** [genAI.getGenerativeModel({ model: name })] *)
Definition getGenerativeModel (name : string) : P unit :=
  fun p =>
    (Some tt,
     {| stderr := stderr p; stdout := stdout p; exit_code := exit_code p;
        client_key := client_key p; model_name := Some name;
        mcp_server := mcp_server p; tools := tools p; stack := stack p;
        listening := listening p |}).

(** [new McpExpress({ name, description })] *)
Definition new_McpExpress (name description : string) : P unit :=
  fun p =>
    (Some tt,
     {| stderr := stderr p; stdout := stdout p; exit_code := exit_code p;
        client_key := client_key p; model_name := model_name p;
        mcp_server := Some (name, description); tools := tools p;
        stack := stack p; listening := listening p |}).

(** [mcp.tool(name, { description, input, output }, handler)] *)
Definition mcp_tool (t : Tool) : P unit :=
  fun p =>
    (Some tt,
     {| stderr := stderr p; stdout := stdout p; exit_code := exit_code p;
        client_key := client_key p; model_name := model_name p;
        mcp_server := mcp_server p; tools := tools p ++ [t];
        stack := stack p; listening := listening p |}).

(** [app.use(...)] and [app.get(...)]: one more layer on the stack. *)
Definition app_add (l : layer) : P unit :=
  fun p =>
    (Some tt,
     {| stderr := stderr p; stdout := stdout p; exit_code := exit_code p;
        client_key := client_key p; model_name := model_name p;
        mcp_server := mcp_server p; tools := tools p;
        stack := stack p ++ [l]; listening := listening p |}).

(** [app.listen(port, callback)] when the listener can be bound: the
    server listens and the callback runs.  (A port the system refuses ends
    the process after this point; [boot] describes the start-up that gets
    through.) *)
Definition app_listen (port : value) (callback : P unit) : P unit :=
  fun p =>
    callback
      {| stderr := stderr p; stdout := stdout p; exit_code := exit_code p;
         client_key := client_key p; model_name := model_name p;
         mcp_server := mcp_server p; tools := tools p; stack := stack p;
         listening := Some port |}.

(** The top-level code of index.js, in the environment [env] (as it is
    once [dotenv/config] has loaded). *)
Definition main (env : gmap string string) : P unit :=
  let port := or_else (env_get env "PORT") (VNumber 3000) in
  let geminiApiKey := env_get env "GEMINI_API_KEY" in
  (if negb (truthy geminiApiKey) then
     console_error [VString "Error: GEMINI_API_KEY is not set in the environment."];;
     process_exit 1
   else mret tt);;
  new_GoogleGenerativeAI geminiApiKey;;
  getGenerativeModel "gemini-1.5-flash";;
  new_McpExpress
    "AI Content Assistant"
    "A powerful assistant to help you brainstorm and structure articles, blog posts, and essays.";;
  mcp_tool generateContentOutline_tool;;
  app_add (Use "/mcp");;
  app_add (Get "/" health_check);;
  app_listen port
    (console_log [VString ("Server is live on port " +:+ to_template_string port)]).

End Startup.

(** The process once its top-level code has run. *)
Definition boot (env : gmap string string) : Process :=
  (Startup.main env initial_process).2.

Section Serving.

Context {B : Type}.
(** The router of the MCP host library, which is not part of this
    repository: whatever it answers, possibly after consulting the
    backend. *)
Variable mcp_router : Request -> World B -> Response * World B.

(** Express walks the stack in registration order and runs the first layer
    that matches; with none, it answers 404 (of that answer only the status
    is kept). *)
Fixpoint dispatch (layers : list layer) (req : Request) (w : World B)
  : Response * World B :=
  match layers with
  | [] => ({| statusCode := 404; res_headers := ∅; body := None |}, w)
  | Use mount :: rest =>
      if under_mount mount (path req) then mcp_router req w
      else dispatch rest req w
  | Get route handler :: rest =>
      if String.eqb (method req) "GET" && String.eqb (path req) route
      then (handler req {| res_req := req |}, w)
      else dispatch rest req w
  end.

(** A request reaches the application only while the process is alive and
    listens. *)
Definition serve (p : Process) (req : Request) (w : World B)
  : option (Response * World B) :=
  match exit_code p, listening p with
  | None, Some _ => Some (dispatch (stack p) req w)
  | _, _ => None
  end.

End Serving.

(** ** Sample backends and worlds *)

(** A backend that answers every prompt with the same response. *)
Definition constant_backend (r : GenerateContentResponse)
  : string -> unit -> completion GenerateContentResult * unit :=
  fun _ _ => (Normal {| response := r |}, tt).

(** A backend every call to which is rejected with the same reason. *)
Definition rejecting_backend (reason : value)
  : string -> unit -> completion GenerateContentResult * unit :=
  fun _ _ => (Throws reason, tt).

(** A backend that counts the calls it receives and echoes the length of
    the prompt. *)
Definition counting_backend
  : string -> nat -> completion GenerateContentResult * nat :=
  fun prompt n =>
    (Normal {| response := {| text := Normal (pretty (String.length prompt)) |} |},
     S n).

Definition fresh_world {B : Type} (b : B) : World B :=
  {| backend := b; requests := []; console_error_log := [] |}.

(** ** Invocations one after another *)

Section Sequence.

Context {B : Type}.
Variable generateContent : string -> B -> completion GenerateContentResult * B.

(** The host calls the handler for each input in turn, each call awaited
    before the next; the outcomes come back in the same order. *)
Fixpoint run_all (inputs : list ToolRequest) (w : World B)
  : list (completion value) * World B :=
  match inputs with
  | [] => ([], w)
  | input :: rest =>
      let '(c, w1) := generateContentOutline generateContent input w in
      let '(cs, w2) := run_all rest w1 in
      (c :: cs, w2)
  end.

End Sequence.

Definition threw {A : Type} (c : completion A) : bool :=
  match c with Throws _ => true | Normal _ => false end.

(** ** Invocations that have ended *)

Definition settled (t : task) : bool :=
  match t with Settled _ _ => true | _ => false end.

Definition task_failed (t : task) : bool :=
  match t with Settled _ c => threw c | _ => false end.

(** The invocations of [pool] that have ended in an error. *)
Definition failures (pool : list task) : nat :=
  length (List.filter task_failed pool).

(** Two invocations, started in order and settled in the opposite order,
    the first of them after a backend failure. *)
Definition sample_inputs : list ToolRequest :=
  [{| topic := "tea" |}; {| topic := "chess" |}].

Definition sample_pool : list task :=
  [Settled {| topic := "tea" |} (Throws backend_error);
   Settled {| topic := "chess" |}
     (Normal (VObject {[ "outline" := VString "I. Openings" ]}))].

Definition sample_world : World unit :=
  {| backend := tt;
     requests := [prompt {| topic := "tea" |}; prompt {| topic := "chess" |}];
     console_error_log :=
       [[VString "Error calling Gemini API:"; VError "quota exceeded"]] |}.

(** ** Facts about strings *)

Section StringFacts.

Implicit Types s t u : string.

Lemma string_app_cons c s t : String c s +:+ t = String c (s +:+ t).
Proof. reflexivity. Qed.

Lemma string_app_assoc s t u : (s +:+ t) +:+ u = s +:+ (t +:+ u).
Proof.
  induction s as [|c s IH]; [reflexivity|].
  rewrite !string_app_cons. by rewrite IH.
Qed.

Lemma string_length_app s t :
  String.length (s +:+ t) = String.length s + String.length t.
Proof.
  induction s as [|c s IH]; [reflexivity|].
  rewrite string_app_cons. cbn [String.length]. by rewrite IH.
Qed.

Lemma prefix_app s t : String.prefix s (s +:+ t) = true.
Proof.
  induction s as [|c s IH]; [by destruct t|].
  rewrite string_app_cons. cbn [String.prefix].
  destruct (ascii_dec c c); [exact IH | congruence].
Qed.

Lemma occurrences_empty t : occurrences EmptyString t = S (String.length t).
Proof. induction t as [|c t IH]; [reflexivity|]. cbn. by rewrite IH. Qed.

(** Text put in front never removes an occurrence. *)
Lemma occurrences_app_r s t u : occurrences s u <= occurrences s (t +:+ u).
Proof.
  induction t as [|c t IH]; [reflexivity|].
  rewrite string_app_cons. cbn [occurrences]. lia.
Qed.

Lemma occurrences_prefix s u : 1 <= occurrences s (s +:+ u).
Proof.
  destruct (s +:+ u) eqn:E; cbn [occurrences];
    rewrite <- E, prefix_app; lia.
Qed.

(** A non-empty needle at the front counts once more than what follows. *)
Lemma occurrences_cons_prefix c s u :
  S (occurrences (String c s) u) <= occurrences (String c s) (String c s +:+ u).
Proof.
  rewrite string_app_cons. cbn [occurrences].
  rewrite <- string_app_cons, prefix_app.
  pose proof (occurrences_app_r (String c s) s u). lia.
Qed.

Lemma fill_length first rest t :
  String.length (fill first rest t) =
  String.length (fill first rest EmptyString) + length rest * String.length t.
Proof.
  revert first. induction rest as [|s rest IH]; intros first; cbn [fill length].
  - lia.
  - rewrite !string_length_app, (IH s). cbn [String.length]. lia.
Qed.

(** The number of holes of a text is determined by the text. *)
Lemma embeds_exactly_unique n m f :
  embeds_exactly n f -> embeds_exactly m f -> n = m.
Proof.
  intros (f1 & r1 & L1 & E1) (f2 & r2 & L2 & E2).
  pose proof (fill_length f1 r1 "x") as A1.
  pose proof (fill_length f2 r2 "x") as A2.
  rewrite <- E1 in A1. rewrite <- E2 in A2.
  rewrite <- (E1 EmptyString) in A1. rewrite <- (E2 EmptyString) in A2.
  cbn [String.length] in *. lia.
Qed.

End StringFacts.

(** ** The prompt and the topic *)

Lemma prompt_segments input :
  prompt input =
  template_head +:+ topic input +:+ template_middle +:+ topic input +:+ template_tail.
Proof. reflexivity. Qed.

Lemma prompt_embeds_twice :
  embeds_exactly 2 (fun t => prompt {| topic := t |}).
Proof.
  exists template_head, [template_middle; template_tail].
  split; [reflexivity|]. intros t. reflexivity.
Qed.

(** C1, as worded, at the topic the tool's own description gives as an
    example: the topic starts at two places of the prompt, not at one. *)
Lemma prompt_topic_once_fails :
  occurrences "the future of artificial intelligence"
    (prompt {| topic := "the future of artificial intelligence" |}) = 2
  /\ occurrences "the future of artificial intelligence"
    (prompt {| topic := "the future of artificial intelligence" |}) <> 1
  /\ ~ embeds_exactly 1 (fun t => prompt {| topic := t |}).
Proof.
  split; [vm_compute; reflexivity|].
  split; [vm_compute; discriminate|].
  intros H. pose proof (embeds_exactly_unique _ _ _ H prompt_embeds_twice).
  discriminate.
Qed.

(** C1 (amended): for every topic the prompt is the constant template with
    the topic spliced in unmodified at exactly two substitution points, so
    the topic occurs in the prompt at least twice. *)
Theorem prompt_embeds_topic_twice (input : ToolRequest) :
  prompt input =
    template_head +:+ topic input +:+ template_middle +:+ topic input +:+ template_tail
  /\ embeds_exactly 2 (fun t => prompt {| topic := t |})
  /\ 2 <= occurrences (topic input) (prompt input).
Proof.
  split; [reflexivity|]. split; [exact prompt_embeds_twice|].
  rewrite prompt_segments.
  destruct (topic input) as [|c s] eqn:E.
  - rewrite occurrences_empty. vm_compute. lia.
  - etransitivity; [|apply occurrences_app_r].
    etransitivity; [|apply occurrences_cons_prefix].
    apply le_n_S.
    etransitivity; [|apply occurrences_app_r].
    apply occurrences_prefix.
Qed.

(** ** The handler, run once *)

Section HandlerFacts.

Context {B : Type}.
Variable generateContent : string -> B -> completion GenerateContentResult * B.

Lemma text_or_failure (c : completion GenerateContentResult) :
  (exists t, text_of c = Some t /\ failure_of c = None) \/
  (exists e, failure_of c = Some e /\ text_of c = None).
Proof.
  destruct c as [[[[t|e]]]|e]; cbn; eauto.
Qed.

Lemma resume_success c b (w : World B) t :
  text_of c = Some t ->
  resume c b w =
    (Normal (VObject {[ "outline" := VString t ]}),
     {| backend := b; requests := requests w;
        console_error_log := console_error_log w |}).
Proof.
  destruct c as [[[[t'|e]]]|e]; cbn; intros [= ->]; reflexivity.
Qed.

Lemma resume_failure c b (w : World B) e :
  failure_of c = Some e ->
  resume c b w =
    (Throws backend_error,
     {| backend := b; requests := requests w;
        console_error_log :=
          console_error_log w ++ [[VString "Error calling Gemini API:"; e]] |}).
Proof.
  destruct c as [[[[t'|e']]]|e']; cbn; intros [= ->]; reflexivity.
Qed.

(** The second piece sends nothing and leaves the backend as the settled
    call left it. *)
Lemma resume_frame c b (w : World B) :
  requests (resume c b w).2 = requests w /\ backend (resume c b w).2 = b.
Proof.
  destruct (text_or_failure c) as [(t & T & _)|(e & F & _)].
  - by rewrite (resume_success _ _ _ _ T).
  - by rewrite (resume_failure _ _ _ _ F).
Qed.

(** The handler is its first piece (build the prompt, send it) followed by
    its second (from the settled call on). *)
Lemma handler_split input (w : World B) :
  generateContentOutline generateContent input w =
    resume (generateContent (prompt input) (backend w)).1
           (generateContent (prompt input) (backend w)).2
           (send_request (prompt input) w).
Proof.
  unfold generateContentOutline, resume, try_catch, model_generateContent,
    mbind, M_bind.
  destruct (generateContent (prompt input) (backend w)) as [c b].
  reflexivity.
Qed.

End HandlerFacts.

(** ** Outcomes of an invocation *)

(** C2, as worded, at a backend whose call is rejected with a 503 error:
    the message of the error the caller gets is not the sentence of the
    specification. *)
Lemma generic_message_as_specified_fails :
  let generateContent := rejecting_backend (VError "503 Service Unavailable") in
  let w := fresh_world tt in
  (generateContentOutline generateContent {| topic := "tea" |} w).1
    = Throws (VError "There was an issue contacting the AI content strategist.")
  /\ (generateContentOutline generateContent {| topic := "tea" |} w).1
    <> Throws (VError "there was an issue contacting the content strategist backend").
Proof. split; [reflexivity | discriminate]. Qed.

(** C2 (amended): whenever the backend call fails (the awaited promise is
    rejected, or extracting the text throws) with underlying error [e], the
    handler writes [e] to the error console once and fails with the one
    fixed error whose message is "There was an issue contacting the AI
    content strategist."; that error is the same whatever [e] is. *)
Theorem backend_failure_is_generic {B : Type}
    (generateContent : string -> B -> completion GenerateContentResult * B)
    (input : ToolRequest) (w : World B) (e : value) :
  failure_of (generateContent (prompt input) (backend w)).1 = Some e ->
  let out := generateContentOutline generateContent input w in
  out.1 = Throws (new_Error "There was an issue contacting the AI content strategist.")
  /\ console_error_log out.2 =
       (console_error_log w ++ [[VString "Error calling Gemini API:"; e]])%list
  /\ (forall (B' : Type)
        (generateContent' : string -> B' -> completion GenerateContentResult * B')
        (input' : ToolRequest) (w' : World B') (e' : value),
        failure_of (generateContent' (prompt input') (backend w')).1 = Some e' ->
        (generateContentOutline generateContent' input' w').1 = out.1).
Proof.
  intros F out. subst out. rewrite handler_split, (resume_failure _ _ _ _ F).
  split; [reflexivity|]. split; [reflexivity|].
  intros B' gc' input' w' e' F'.
  rewrite handler_split, (resume_failure _ _ _ _ F'). reflexivity.
Qed.

Lemma backend_failure_is_generic_witness :
  let generateContent := rejecting_backend (VError "503 Service Unavailable") in
  let w := fresh_world tt in
  let out := generateContentOutline generateContent {| topic := "tea" |} w in
  failure_of (generateContent (prompt {| topic := "tea" |}) (backend w)).1
    = Some (VError "503 Service Unavailable")
  /\ out.1 = Throws (VError "There was an issue contacting the AI content strategist.")
  /\ console_error_log out.2 =
       [[VString "Error calling Gemini API:"; VError "503 Service Unavailable"]].
Proof.
  intros gc w out. split; [reflexivity|].
  pose proof (backend_failure_is_generic gc {| topic := "tea" |} w
                (VError "503 Service Unavailable") eq_refl) as H.
  split; [exact (proj1 H) | exact (proj1 (proj2 H))].
Defined.

(** C3: one invocation either returns a response object whose [outline]
    property is present and holds a string (so neither [null] nor
    [undefined]), or fails with the one backend error; it never does both
    and never neither. *)
Theorem outline_or_backend_error {B : Type}
    (generateContent : string -> B -> completion GenerateContentResult * B)
    (input : ToolRequest) (w : World B) :
  let outcome := (generateContentOutline generateContent input w).1 in
  let returns :=
    exists fields t, outcome = Normal (VObject fields)
      /\ fields !! "outline" = Some (VString t)
      /\ get fields "outline" <> VNull /\ get fields "outline" <> VUndefined in
  let fails := outcome = Throws backend_error in
  (returns \/ fails) /\ ~ (returns /\ fails).
Proof.
  intros outcome returns fails. subst outcome returns fails.
  rewrite handler_split.
  destruct (text_or_failure (generateContent (prompt input) (backend w)).1)
    as [(t & T & _)|(e & F & _)].
  - rewrite (resume_success _ _ _ _ T). split.
    + left. exists {[ "outline" := VString t ]}, t.
      unfold get. rewrite lookup_singleton_eq. by cbn.
    + intros [_ H]. discriminate H.
  - rewrite (resume_failure _ _ _ _ F). split.
    + by right.
    + intros [(fields & t & H & _) _]. discriminate H.
Qed.

(** C4: when the backend call succeeds with text [T], the handler returns
    [{ outline: T }], with [T] exactly as the backend gave it. *)
Theorem outline_is_backend_text {B : Type}
    (generateContent : string -> B -> completion GenerateContentResult * B)
    (input : ToolRequest) (w : World B) (T : string) :
  text_of (generateContent (prompt input) (backend w)).1 = Some T ->
  (generateContentOutline generateContent input w).1
    = Normal (VObject {[ "outline" := VString T ]})
  /\ forall fields,
       (generateContentOutline generateContent input w).1 = Normal (VObject fields) ->
       get fields "outline" = VString T.
Proof.
  intros H. rewrite handler_split, (resume_success _ _ _ _ H).
  split; [reflexivity|].
  intros fields [= <-]. unfold get. by rewrite lookup_singleton_eq.
Qed.

Lemma outline_is_backend_text_witness :
  let T := "  I. Intro  " +:+ nl +:+ nl +:+ "   - hook   " +:+ nl in
  let generateContent := constant_backend {| text := Normal T |} in
  let w := fresh_world tt in
  text_of (generateContent (prompt {| topic := "tea" |}) (backend w)).1 = Some T
  /\ (generateContentOutline generateContent {| topic := "tea" |} w).1
     = Normal (VObject {[ "outline" := VString T ]}).
Proof.
  intros T gc w. split; [reflexivity|].
  exact (proj1 (outline_is_backend_text gc {| topic := "tea" |} w T eq_refl)).
Defined.

(** C5: every invocation sends exactly one request to the backend, the
    prompt, and the backend is advanced by exactly that one call, whether
    the call succeeds or fails. *)
Theorem one_backend_call {B : Type}
    (generateContent : string -> B -> completion GenerateContentResult * B)
    (input : ToolRequest) (w : World B) :
  let out := generateContentOutline generateContent input w in
  requests out.2 = (requests w ++ [prompt input])%list
  /\ length (requests out.2) = S (length (requests w))
  /\ backend out.2 = (generateContent (prompt input) (backend w)).2.
Proof.
  intros out. subst out. rewrite handler_split.
  destruct (resume_frame (generateContent (prompt input) (backend w)).1
              (generateContent (prompt input) (backend w)).2
              (send_request (prompt input) w)) as [-> ->].
  cbn. rewrite length_app. cbn. split; [done|]. split; [lia|done].
Qed.

(** The counting backend sees one call per invocation, also when the
    invocations follow one another. *)
Example two_invocations_two_calls :
  let w1 := (generateContentOutline counting_backend {| topic := "tea" |}
               (fresh_world 0)).2 in
  let w2 := (generateContentOutline counting_backend {| topic := "chess" |} w1).2 in
  backend w1 = 1 /\ backend w2 = 2
  /\ requests w2 = [prompt {| topic := "tea" |}; prompt {| topic := "chess" |}].
Proof. repeat split. Qed.

(** C10: whenever an invocation returns, what it returns is an object with
    exactly one property, [outline], holding the string the backend gave;
    such an object passes the declared output schema unchanged. *)
Theorem response_has_only_outline {B : Type}
    (generateContent : string -> B -> completion GenerateContentResult * B)
    (input : ToolRequest) (w : World B) (v : value) :
  (generateContentOutline generateContent input w).1 = Normal v ->
  exists T,
    text_of (generateContent (prompt input) (backend w)).1 = Some T
    /\ v = VObject {[ "outline" := VString T ]}
    /\ (forall fields, v = VObject fields ->
          dom fields = {[ "outline" ]} /\ size fields = 1
          /\ fields !! "outline" = Some (VString T))
    /\ Zod.parse output_schema v = Some v.
Proof.
  rewrite handler_split.
  destruct (text_or_failure (generateContent (prompt input) (backend w)).1)
    as [(t & T & _)|(e & F & _)].
  - rewrite (resume_success _ _ _ _ T). intros [= <-].
    exists t. split; [done|]. split; [done|]. split.
    + intros fields [= <-].
      rewrite dom_singleton_L, map_size_singleton, lookup_singleton_eq. done.
    + cbn. unfold get. rewrite lookup_singleton_eq. reflexivity.
  - rewrite (resume_failure _ _ _ _ F). discriminate.
Qed.

Lemma response_has_only_outline_witness :
  let generateContent := constant_backend {| text := Normal "I. Introduction" |} in
  let w := fresh_world tt in
  (generateContentOutline generateContent {| topic := "tea" |} w).1
    = Normal (VObject {[ "outline" := VString "I. Introduction" ]})
  /\ Zod.parse output_schema (VObject {[ "outline" := VString "I. Introduction" ]})
     = Some (VObject {[ "outline" := VString "I. Introduction" ]}).
Proof.
  intros gc w. split; [reflexivity|].
  destruct (response_has_only_outline gc {| topic := "tea" |} w
              (VObject {[ "outline" := VString "I. Introduction" ]}) eq_refl)
    as (T & _ & _ & _ & P).
  exact P.
Defined.

(** ** The input schema *)

Lemma input_schema_accepts_strings (v : value) :
  Zod.parse input_schema (VObject {[ "topic" := v ]}) =
    if is_string v then Some (VObject {[ "topic" := v ]}) else None.
Proof.
  cbn. unfold get. rewrite lookup_singleton_eq. cbn.
  destruct (is_string v); reflexivity.
Qed.

Lemma as_request_string (s : string) :
  as_request (VObject {[ "topic" := VString s ]}) = Some {| topic := s |}.
Proof.
  unfold as_request. rewrite input_schema_accepts_strings. cbn.
  unfold get. by rewrite lookup_singleton_eq.
Qed.

(** C9: the input schema asks of [topic] only that it be a string: every
    string passes, the empty one included, and nothing else does.  For the
    empty topic the handler builds the prompt around the empty string and
    sends it to the backend, once, like for any other topic. *)
Theorem empty_topic_is_sent {B : Type}
    (generateContent : string -> B -> completion GenerateContentResult * B)
    (w : World B) :
  (forall v, Zod.parse input_schema (VObject {[ "topic" := v ]}) =
             if is_string v then Some (VObject {[ "topic" := v ]}) else None)
  /\ as_request (VObject {[ "topic" := VString EmptyString ]})
     = Some {| topic := EmptyString |}
  /\ prompt {| topic := EmptyString |}
     = template_head +:+ template_middle +:+ template_tail
  /\ requests (generateContentOutline generateContent {| topic := EmptyString |} w).2
     = (requests w ++ [template_head +:+ template_middle +:+ template_tail])%list
  /\ generateContentOutline generateContent {| topic := EmptyString |} w
     = resume (generateContent (template_head +:+ template_middle +:+ template_tail)
                               (backend w)).1
              (generateContent (template_head +:+ template_middle +:+ template_tail)
                               (backend w)).2
              (send_request (template_head +:+ template_middle +:+ template_tail) w).
Proof.
  split; [exact input_schema_accepts_strings|].
  split; [exact (as_request_string EmptyString)|].
  split; [reflexivity|].
  rewrite handler_split.
  change (prompt {| topic := EmptyString |})
    with (template_head +:+ template_middle +:+ template_tail).
  split; [|reflexivity].
  by rewrite (proj1 (resume_frame _ _ _)).
Qed.

(** ** Invocations in flight together: the invariant *)

Lemma sent_cons (t : task) (pool : list task) :
  sent (t :: pool) =
    if started t then prompt (task_input t) :: sent pool else sent pool.
Proof. unfold sent. cbn. by destruct (started t). Qed.

Lemma sent_insert_started (pool : list task) (i : nat) t t' :
  pool !! i = Some t -> started t = false -> started t' = true ->
  sent (<[i := t']> pool) ≡ₚ prompt (task_input t') :: sent pool.
Proof.
  revert i. induction pool as [|x pool IH]; intros [|i] H Ht Ht'; try done.
  - injection H as ->.
    change (<[0 := t']> (t :: pool)) with (t' :: pool).
    by rewrite !sent_cons, Ht, Ht'.
  - change (<[S i := t']> (x :: pool)) with (x :: <[i := t']> pool).
    rewrite !sent_cons. destruct (started x).
    + rewrite (IH i H Ht Ht'). apply Permutation_swap.
    + by apply IH.
Qed.

Lemma sent_insert_same (pool : list task) (i : nat) t t' :
  pool !! i = Some t -> started t' = started t -> task_input t' = task_input t ->
  sent (<[i := t']> pool) = sent pool.
Proof.
  revert i. induction pool as [|x pool IH]; intros [|i] H Hs Hi; try done.
  - injection H as ->.
    change (<[0 := t']> (t :: pool)) with (t' :: pool).
    by rewrite !sent_cons, Hs, Hi.
  - change (<[S i := t']> (x :: pool)) with (x :: <[i := t']> pool).
    by rewrite !sent_cons, (IH i H Hs Hi).
Qed.

Lemma inputs_insert_same (pool : list task) (i : nat) t t' :
  pool !! i = Some t -> task_input t' = task_input t ->
  task_input <$> <[i := t']> pool = task_input <$> pool.
Proof.
  intros H Hi. rewrite list_fmap_insert, Hi.
  apply list_insert_id. by rewrite list_lookup_fmap, H.
Qed.

Lemma sent_called (inputs : list ToolRequest) : sent (Called <$> inputs) = [].
Proof.
  induction inputs as [|x l IH]; [done|].
  change (Called <$> x :: l) with (Called x :: (Called <$> l)).
  by rewrite sent_cons.
Qed.

Lemma resume_ok {B : Type} c b (w : World B) input :
  task_ok (Settled input (resume c b w).1).
Proof.
  destruct (text_or_failure c) as [(t & T & _)|(e & F & _)].
  - rewrite (resume_success _ _ _ _ T). left. by exists t.
  - rewrite (resume_failure _ _ _ _ F). by right.
Qed.

Lemma pool_inv_init {B : Type} inputs (w0 : World B) :
  pool_inv inputs w0 (Called <$> inputs, w0).
Proof.
  unfold pool_inv. cbn. split; [|split].
  - rewrite <- list_fmap_compose. apply list_fmap_id.
  - by rewrite sent_called, app_nil_r.
  - apply Forall_fmap, Forall_true. done.
Qed.

Lemma pool_inv_step {B : Type} inputs (w0 : World B) s s' :
  pool_inv inputs w0 s -> step s s' -> pool_inv inputs w0 s'.
Proof.
  intros (I & R & O) St. destruct St as [pool w i input H|pool w i input p c b H];
    cbn [fst snd] in *; (split; [|split]); cbn [fst snd].
  - by rewrite (inputs_insert_same _ _ _ _ H).
  - rewrite (sent_insert_started _ _ _ _ H) by done.
    cbn [task_input send_request requests].
    rewrite R, <- (Permutation_cons_append _ (prompt input)).
    by rewrite <- (Permutation_middle (requests w0) _ (prompt input)).
  - apply Forall_insert; done.
  - by rewrite (inputs_insert_same _ _ _ _ H).
  - rewrite (proj1 (resume_frame _ _ _)).
    by rewrite (sent_insert_same _ _ _ _ H).
  - apply Forall_insert; [done|]. apply resume_ok.
Qed.

Lemma pool_inv_steps {B : Type} inputs (w0 : World B) s :
  steps (Called <$> inputs, w0) s -> pool_inv inputs w0 s.
Proof.
  intros H. remember (Called <$> inputs, w0) as s0 eqn:E.
  induction H as [s|s1 s2 s3 H12 IH H23].
  - subst. apply pool_inv_init.
  - eapply pool_inv_step; [by apply IH | done].
Qed.

Lemma sent_elem (pool : list task) (r : string) :
  r ∈ sent pool ->
  exists t, t ∈ pool /\ started t = true /\ r = prompt (task_input t).
Proof.
  unfold sent. rewrite list_elem_of_omap. intros (t & Ht & E).
  exists t. destruct (started t); [|done]. by injection E as <-.
Qed.

(** C8: the prompt is the constant template around the topic, spliced in
    as it is; equal topics give equal prompts; and however invocations
    interleave, the requests that reach the backend are the prompts of the
    invocations that have started, each built from that invocation's own
    topic and from nothing else. *)
Theorem prompt_depends_on_own_topic_only {B : Type}
    (inputs : list ToolRequest) (w0 : World B)
    (pool : list task) (w : World B) :
  steps (Called <$> inputs, w0) (pool, w) ->
  (forall input,
     prompt input =
       template_head +:+ topic input +:+ template_middle +:+ topic input
         +:+ template_tail)
  /\ (forall input1 input2, topic input1 = topic input2 -> prompt input1 = prompt input2)
  /\ task_input <$> pool = inputs
  /\ requests w ≡ₚ (requests w0 ++ sent pool)%list
  /\ (forall i input p,
        pool !! i = Some (Awaiting input p) ->
        inputs !! i = Some input /\ p = prompt input)
  /\ (forall r, r ∈ requests w ->
        r ∈ requests w0 \/ exists input, input ∈ inputs /\ r = prompt input).
Proof.
  intros H. destruct (pool_inv_steps _ _ _ H) as (I & R & O). cbn [fst snd] in *.
  split; [intros; reflexivity|].
  split; [intros [t1] [t2]; cbn; by intros ->|].
  split; [done|]. split; [done|]. split.
  - intros i input p Hi. split.
    + by rewrite <- I, list_lookup_fmap, Hi.
    + rewrite Forall_lookup in O. exact (O i _ Hi).
  - intros r Hr. rewrite R, elem_of_app in Hr. destruct Hr as [Hr|Hr]; [by left|].
    right. destruct (sent_elem _ _ Hr) as (t & Ht & _ & ->).
    exists (task_input t). split; [|done].
    rewrite <- I. by apply list_elem_of_fmap_2.
Qed.

Lemma prompt_depends_on_own_topic_only_witness :
  let tea := {| topic := "tea" |} in
  let chess := {| topic := "chess" |} in
  let answer :=
    Normal {| response := {| text := Normal "I. Openings" |} |} in
  let pool :=
    [Settled tea (Throws backend_error);
     Settled chess (Normal (VObject {[ "outline" := VString "I. Openings" ]}))] in
  let w :=
    {| backend := tt;
       requests := [prompt tea; prompt chess];
       console_error_log :=
         [[VString "Error calling Gemini API:"; VError "quota exceeded"]] |} in
  steps (Called <$> [tea; chess], fresh_world tt) (pool, w)
  /\ requests w ≡ₚ (requests (fresh_world tt) ++ sent pool)%list.
Proof.
  intros tea chess answer pool w.
  assert (steps (Called <$> [tea; chess], fresh_world tt) (pool, w)) as S.
  { eapply steps_step; [eapply steps_step; [eapply steps_step;
      [eapply steps_step; [apply steps_refl|]|]|]|].
    - refine (step_start _ _ 0 tea _). reflexivity.
    - refine (step_start _ _ 1 chess _). reflexivity.
    - refine (step_settle _ _ 1 chess (prompt chess) answer tt _). reflexivity.
    - refine (step_settle _ _ 0 tea (prompt tea)
                (Throws (VError "quota exceeded")) tt _). reflexivity. }
  split; [exact S|].
  exact (proj1 (proj2 (proj2 (proj2
    (prompt_depends_on_own_topic_only [tea; chess] (fresh_world tt) pool w S))))).
Defined.

(** ** Start-up and the health route *)

(** The two ways start-up ends. *)
Lemma boot_without_key (env : gmap string string) :
  truthy (env_get env "GEMINI_API_KEY") = false ->
  boot env =
    {| stderr := [[VString "Error: GEMINI_API_KEY is not set in the environment."]];
       stdout := []; exit_code := Some 1%Z; client_key := None;
       model_name := None; mcp_server := None; tools := []; stack := [];
       listening := None |}.
Proof. intros H. unfold boot, Startup.main. rewrite H. reflexivity. Qed.

Lemma boot_with_key (env : gmap string string) :
  truthy (env_get env "GEMINI_API_KEY") = true ->
  let port := or_else (env_get env "PORT") (VNumber 3000) in
  boot env =
    {| stderr := [];
       stdout := [[VString ("Server is live on port " +:+ to_template_string port)]];
       exit_code := None;
       client_key := Some (env_get env "GEMINI_API_KEY");
       model_name := Some "gemini-1.5-flash";
       mcp_server :=
         Some ("AI Content Assistant",
               "A powerful assistant to help you brainstorm and structure articles, blog posts, and essays.");
       tools := [generateContentOutline_tool];
       stack := [Use "/mcp"; Get "/" health_check];
       listening := Some port |}.
Proof. intros H. unfold boot, Startup.main. rewrite H. reflexivity. Qed.

Lemma key_truthy_iff (env : gmap string string) :
  truthy (env_get env "GEMINI_API_KEY") = true <->
  exists key, env !! "GEMINI_API_KEY" = Some key /\ key <> EmptyString.
Proof.
  unfold env_get. destruct (env !! "GEMINI_API_KEY") as [[|c key]|]; cbn.
  - split; [done|]. by intros (k & [= <-] & ?).
  - split; [|done]. intros _. by eexists.
  - split; [done|]. by intros (k & ? & _).
Qed.

(** The server runs exactly when the key is there and is not empty. *)
Lemma boot_runs_iff (env : gmap string string) :
  exit_code (boot env) = None <->
  exists key, env !! "GEMINI_API_KEY" = Some key /\ key <> EmptyString.
Proof.
  rewrite <- key_truthy_iff.
  destruct (truthy (env_get env "GEMINI_API_KEY")) eqn:E.
  - by rewrite (boot_with_key env E).
  - by rewrite (boot_without_key env E).
Qed.

(** C6: with no [GEMINI_API_KEY] in the environment the process writes the
    error to the console and exits with code 1; it has registered no route
    and is not listening, so no request is ever answered, neither under
    [/mcp] nor at [/]. *)
Theorem missing_key_exits (env : gmap string string) :
  env !! "GEMINI_API_KEY" = None ->
  stderr (boot env)
    = [[VString "Error: GEMINI_API_KEY is not set in the environment."]]
  /\ exit_code (boot env) = Some 1%Z
  /\ (forall code, exit_code (boot env) = Some code -> code <> 0%Z)
  /\ listening (boot env) = None
  /\ stack (boot env) = []
  /\ tools (boot env) = []
  /\ client_key (boot env) = None
  /\ forall (B : Type) (mcp_router : Request -> World B -> Response * World B)
       (req : Request) (w : World B),
       serve mcp_router (boot env) req w = None.
Proof.
  intros H. unfold serve. rewrite boot_without_key.
  - cbn. repeat split; try done. by intros code [= <-].
  - unfold env_get. by rewrite H.
Qed.

Lemma missing_key_exits_witness :
  let env : gmap string string := {[ "PORT" := "8080" ]} in
  env !! "GEMINI_API_KEY" = None
  /\ exit_code (boot env) = Some 1%Z
  /\ serve (fun req (w : World unit) =>
              ({| statusCode := 200; res_headers := ∅; body := None |}, w))
       (boot env)
       {| method := "GET"; path := "/"; headers := ∅ |} (fresh_world tt) = None.
Proof.
  intros env.
  assert (env !! "GEMINI_API_KEY" = None) as H by reflexivity.
  split; [exact H|].
  destruct (missing_key_exits env H) as (_ & E & _ & _ & _ & _ & _ & S).
  split; [exact E | apply S].
Defined.






(** ** More about the prompt *)

Lemma string_app_same_length (s1 s2 u1 u2 : string) :
  s1 +:+ u1 = s2 +:+ u2 -> String.length s1 = String.length s2 -> s1 = s2.
Proof.
  revert s2. induction s1 as [|c s1 IH]; intros [|c2 s2] E L; try done.
  rewrite !string_app_cons in E. injection E as -> E.
  f_equal. apply IH; [done|]. by injection L.
Qed.

Lemma prompt_length_raw (t : string) :
  String.length (prompt {| topic := t |}) = 962 + 2 * String.length t.
Proof.
  rewrite prompt_segments. cbn [topic].
  rewrite !string_length_app.
  pose proof (eq_refl : String.length template_head
                           + String.length template_middle
                           + String.length template_tail = 962).
  lia.
Qed.

(** The prompt is never cut: its length is that of the template, 962, plus
    twice the length of the topic, however long the topic is. *)
Theorem prompt_length (input : ToolRequest) :
  String.length (prompt input) = 962 + 2 * String.length (topic input).
Proof. destruct input as [t]. apply prompt_length_raw. Qed.

(** Different topics never give the same prompt. *)
Theorem prompt_injective (input1 input2 : ToolRequest) :
  topic input1 <> topic input2 -> prompt input1 <> prompt input2.
Proof.
  destruct input1 as [t1], input2 as [t2]. cbn [topic]. intros N E. apply N.
  pose proof (prompt_length_raw t1) as L1.
  pose proof (prompt_length_raw t2) as L2.
  rewrite E in L1.
  rewrite !prompt_segments in E. cbn [topic] in E.
  apply (String.app_inj template_head) in E.
  apply (string_app_same_length _ _ _ _ E). lia.
Qed.

Lemma prompt_injective_witness :
  topic {| topic := "tea" |} <> topic {| topic := "tea " |}
  /\ prompt {| topic := "tea" |} <> prompt {| topic := "tea " |}.
Proof.
  assert (topic {| topic := "tea" |} <> topic {| topic := "tea " |}) as N
    by discriminate.
  split; [exact N | exact (prompt_injective _ _ N)].
Defined.

(** ** More about one invocation *)

(** The handler writes to the error console exactly when the backend call
    failed, and then one line: the label and the underlying error.  A
    successful invocation writes nothing. *)
Theorem logs_exactly_the_failure {B : Type}
    (generateContent : string -> B -> completion GenerateContentResult * B)
    (input : ToolRequest) (w : World B) :
  console_error_log (generateContentOutline generateContent input w).2 =
    (console_error_log w ++
     match failure_of (generateContent (prompt input) (backend w)).1 with
     | Some e => [[VString "Error calling Gemini API:"; e]]
     | None => []
     end)%list
  /\ (threw (generateContentOutline generateContent input w).1 = true <->
      failure_of (generateContent (prompt input) (backend w)).1 <> None).
Proof.
  rewrite handler_split.
  destruct (text_or_failure (generateContent (prompt input) (backend w)).1)
    as [(t & T & F)|(e & F & _)].
  - rewrite (resume_success _ _ _ _ T), F. cbn. rewrite app_nil_r.
    split; [done|]. split; [done|]. by intros [].
  - rewrite (resume_failure _ _ _ _ F), F. cbn. done.
Qed.

(** The handler keeps nothing from one call to the next: its outcome and
    the state it leaves the backend in depend on the input and on the
    backend alone, not on what was sent or logged before. *)
Theorem handler_is_stateless {B : Type}
    (generateContent : string -> B -> completion GenerateContentResult * B)
    (input : ToolRequest) (w1 w2 : World B) :
  backend w1 = backend w2 ->
  (generateContentOutline generateContent input w1).1
    = (generateContentOutline generateContent input w2).1
  /\ backend (generateContentOutline generateContent input w1).2
    = backend (generateContentOutline generateContent input w2).2.
Proof.
  intros E. rewrite !handler_split, E.
  destruct (text_or_failure (generateContent (prompt input) (backend w2)).1)
    as [(t & T & _)|(e & F & _)].
  - by rewrite !(resume_success _ _ _ _ T).
  - by rewrite !(resume_failure _ _ _ _ F).
Qed.

Lemma handler_is_stateless_witness :
  let busy : World nat :=
    {| backend := 3;
       requests := ["earlier prompt"];
       console_error_log := [[VString "earlier line"]] |} in
  backend (fresh_world 3) = backend busy
  /\ (generateContentOutline counting_backend {| topic := "tea" |} (fresh_world 3)).1
     = (generateContentOutline counting_backend {| topic := "tea" |} busy).1.
Proof.
  intros busy.
  assert (backend (fresh_world 3) = backend busy) as E by reflexivity.
  split; [exact E|].
  exact (proj1 (handler_is_stateless counting_backend {| topic := "tea" |}
                  (fresh_world 3) busy E)).
Defined.

(** ** Invocations one after another *)

Lemma run_all_cons {B : Type}
    (generateContent : string -> B -> completion GenerateContentResult * B)
    (input : ToolRequest) (rest : list ToolRequest) (w : World B) :
  run_all generateContent (input :: rest) w =
    ((generateContentOutline generateContent input w).1
       :: (run_all generateContent rest
             (generateContentOutline generateContent input w).2).1,
     (run_all generateContent rest
        (generateContentOutline generateContent input w).2).2).
Proof.
  cbn [run_all].
  destruct (generateContentOutline generateContent input w) as [c w1].
  cbn [fst snd]. by destruct (run_all generateContent rest w1).
Qed.

Lemma handler_requests {B : Type}
    (generateContent : string -> B -> completion GenerateContentResult * B)
    (input : ToolRequest) (w : World B) :
  requests (generateContentOutline generateContent input w).2
    = (requests w ++ [prompt input])%list.
Proof. rewrite handler_split. by rewrite (proj1 (resume_frame _ _ _)). Qed.

(** A sequence of invocations sends the backend one request each, the
    prompts of the inputs in call order, after whatever was sent before;
    there is one outcome per input. *)
Theorem run_all_requests {B : Type}
    (generateContent : string -> B -> completion GenerateContentResult * B)
    (inputs : list ToolRequest) (w : World B) :
  requests (run_all generateContent inputs w).2
    = (requests w ++ (prompt <$> inputs))%list
  /\ length (run_all generateContent inputs w).1 = length inputs.
Proof.
  revert w. induction inputs as [|input rest IH]; intros w.
  - cbn. by rewrite app_nil_r.
  - rewrite run_all_cons. cbn [fst snd length].
    destruct (IH (generateContentOutline generateContent input w).2) as [-> ->].
    rewrite handler_requests. by rewrite <- app_assoc.
Qed.

Lemma handler_outcome_ok {B : Type}
    (generateContent : string -> B -> completion GenerateContentResult * B)
    (input : ToolRequest) (w : World B) :
  task_ok (Settled input (generateContentOutline generateContent input w).1).
Proof. rewrite handler_split. apply resume_ok. Qed.

Lemma handler_log_length {B : Type}
    (generateContent : string -> B -> completion GenerateContentResult * B)
    (input : ToolRequest) (w : World B) :
  length (console_error_log (generateContentOutline generateContent input w).2)
    = length (console_error_log w)
      + (if threw (generateContentOutline generateContent input w).1 then 1 else 0).
Proof.
  rewrite handler_split.
  destruct (text_or_failure (generateContent (prompt input) (backend w)).1)
    as [(t & T & _)|(e & F & _)].
  - rewrite (resume_success _ _ _ _ T). cbn. lia.
  - rewrite (resume_failure _ _ _ _ F). cbn. rewrite length_app. cbn. lia.
Qed.

(** In a sequence of invocations every outcome is a response object or
    the backend error, and the error console grows by as many lines as
    there are failed invocations. *)
Theorem run_all_outcomes {B : Type}
    (generateContent : string -> B -> completion GenerateContentResult * B)
    (inputs : list ToolRequest) (w : World B) :
  Forall (fun c => (exists T, c = Normal (VObject {[ "outline" := VString T ]}))
                   \/ c = Throws backend_error)
         (run_all generateContent inputs w).1
  /\ length (console_error_log (run_all generateContent inputs w).2)
     = length (console_error_log w)
       + length (List.filter threw (run_all generateContent inputs w).1).
Proof.
  revert w. induction inputs as [|input rest IH]; intros w.
  - cbn. split; [constructor | lia].
  - rewrite run_all_cons. cbn [fst snd List.filter].
    destruct (IH (generateContentOutline generateContent input w).2) as [O L].
    split.
    + constructor; [|exact O].
      exact (handler_outcome_ok generateContent input w).
    + rewrite L, handler_log_length.
      destruct (threw (generateContentOutline generateContent input w).1);
        cbn [length]; lia.
Qed.

(** ** More about invocations in flight together *)

Lemma sent_all_started (pool : list task) :
  forallb started pool = true ->
  sent pool = prompt <$> (task_input <$> pool).
Proof.
  induction pool as [|t pool IH]; [done|].
  cbn [forallb]. intros [St Rest]%andb_prop.
  rewrite sent_cons, St, (IH Rest). done.
Qed.

Lemma settled_started (pool : list task) :
  forallb settled pool = true -> forallb started pool = true.
Proof.
  induction pool as [|t pool IH]; [done|].
  cbn [forallb]. intros [St Rest]%andb_prop.
  rewrite (IH Rest). by destruct t.
Qed.

(** Once every invocation has settled, the backend has received exactly
    one request per invocation, its prompt, whatever the interleaving and
    whatever failed: nothing was sent twice and nothing was left out. *)
Theorem settled_pool_requests {B : Type}
    (inputs : list ToolRequest) (w0 : World B)
    (pool : list task) (w : World B) :
  steps (Called <$> inputs, w0) (pool, w) ->
  forallb settled pool = true ->
  requests w ≡ₚ (requests w0 ++ (prompt <$> inputs))%list
  /\ length (requests w) = length (requests w0) + length inputs.
Proof.
  intros H Q. destruct (pool_inv_steps _ _ _ H) as (I & R & _).
  cbn [fst snd] in *.
  rewrite (sent_all_started _ (settled_started _ Q)), I in R.
  split; [exact R|].
  by rewrite R, length_app, length_fmap.
Qed.

Lemma sample_run :
  steps (Called <$> sample_inputs, fresh_world tt) (sample_pool, sample_world).
Proof.
  eapply steps_step; [eapply steps_step; [eapply steps_step;
    [eapply steps_step; [apply steps_refl|]|]|]|].
  - refine (step_start _ _ 0 {| topic := "tea" |} _). reflexivity.
  - refine (step_start _ _ 1 {| topic := "chess" |} _). reflexivity.
  - refine (step_settle _ _ 1 {| topic := "chess" |}
              (prompt {| topic := "chess" |})
              (Normal {| response := {| text := Normal "I. Openings" |} |})
              tt _).
    reflexivity.
  - refine (step_settle _ _ 0 {| topic := "tea" |}
              (prompt {| topic := "tea" |})
              (Throws (VError "quota exceeded")) tt _).
    reflexivity.
Qed.

Lemma settled_pool_requests_witness :
  steps (Called <$> sample_inputs, fresh_world tt) (sample_pool, sample_world)
  /\ forallb settled sample_pool = true
  /\ length (requests sample_world) = 0 + 2.
Proof.
  split; [exact sample_run|]. split; [reflexivity|].
  exact (proj2 (settled_pool_requests sample_inputs (fresh_world tt)
                  sample_pool sample_world sample_run eq_refl)).
Defined.

Lemma failures_cons (t : task) (pool : list task) :
  failures (t :: pool) = (if task_failed t then 1 else 0) + failures pool.
Proof. unfold failures. cbn [List.filter]. by destruct (task_failed t). Qed.

Lemma failures_insert (pool : list task) (i : nat) (t t' : task) :
  pool !! i = Some t ->
  failures (<[i := t']> pool) + (if task_failed t then 1 else 0)
    = failures pool + (if task_failed t' then 1 else 0).
Proof.
  revert i. induction pool as [|x pool IH]; intros [|i] H; try done.
  - injection H as ->.
    change (<[0 := t']> (t :: pool)) with (t' :: pool).
    rewrite !failures_cons. lia.
  - change (<[S i := t']> (x :: pool)) with (x :: <[i := t']> pool).
    rewrite !failures_cons. specialize (IH i H). lia.
Qed.

Lemma failures_called (inputs : list ToolRequest) :
  failures (Called <$> inputs) = 0.
Proof.
  induction inputs as [|x l IH]; [done|].
  change (Called <$> x :: l) with (Called x :: (Called <$> l)).
  by rewrite failures_cons.
Qed.

Lemma resume_log_length {B : Type} c b (w : World B) :
  length (console_error_log (resume c b w).2)
    = length (console_error_log w) + (if threw (resume c b w).1 then 1 else 0).
Proof.
  destruct (text_or_failure c) as [(t & T & _)|(e & F & _)].
  - rewrite (resume_success _ _ _ _ T). cbn. lia.
  - rewrite (resume_failure _ _ _ _ F). cbn. rewrite length_app. cbn. lia.
Qed.

Lemma log_length_step {B : Type} (n : nat) (s s' : list task * World B) :
  length (console_error_log s.2) = n + failures s.1 ->
  step s s' ->
  length (console_error_log s'.2) = n + failures s'.1.
Proof.
  intros L St.
  destruct St as [pool w i input H|pool w i input p c b H]; cbn [fst snd] in *.
  - pose proof (failures_insert pool i _ (Awaiting input (prompt input)) H) as F.
    cbn in F. cbn [send_request console_error_log]. lia.
  - pose proof (failures_insert pool i _ (Settled input (resume c b w).1) H) as F.
    cbn [task_failed] in F. rewrite resume_log_length. lia.
Qed.

(** However invocations interleave, the error console holds one line per
    invocation that has ended in an error, and no other line is added:
    none for a success, none for an invocation still in flight. *)
Theorem one_log_line_per_failure {B : Type}
    (inputs : list ToolRequest) (w0 : World B)
    (pool : list task) (w : World B) :
  steps (Called <$> inputs, w0) (pool, w) ->
  length (console_error_log w) = length (console_error_log w0) + failures pool.
Proof.
  intros H.
  change (length (console_error_log (pool, w).2)
          = length (console_error_log w0) + failures (pool, w).1).
  remember (Called <$> inputs, w0) as s0 eqn:E.
  induction H as [s|s1 s2 s3 H12 IH H23].
  - subst s. cbn [fst snd]. rewrite failures_called. lia.
  - eapply log_length_step; [by apply IH | done].
Qed.

Lemma one_log_line_per_failure_witness :
  steps (Called <$> sample_inputs, fresh_world tt) (sample_pool, sample_world)
  /\ failures sample_pool = 1
  /\ length (console_error_log sample_world) = 0 + 1.
Proof.
  split; [exact sample_run|]. split; [reflexivity|].
  exact (one_log_line_per_failure sample_inputs (fresh_world tt)
           sample_pool sample_world sample_run).
Defined.

Lemma steps_trans {B : Type} (s1 s2 s3 : list task * World B) :
  steps s1 s2 -> steps s2 s3 -> steps s1 s3.
Proof.
  intros H12 H23. induction H23 as [s|s2 s3 s4 H23 IH H34]; [done|].
  eapply steps_step; [by apply IH | done].
Qed.

Lemma step_under_prefix {B : Type} (pre : list task)
    (s s' : list task * World B) :
  step s s' -> step ((pre ++ s.1)%list, s.2) ((pre ++ s'.1)%list, s'.2).
Proof.
  intros St.
  destruct St as [pool w i input H|pool w i input p c b H]; cbn [fst snd].
  - rewrite <- insert_app_r. apply step_start.
    rewrite lookup_app_r by lia. by replace (length pre + i - length pre) with i by lia.
  - rewrite <- insert_app_r. apply (step_settle _ _ _ _ p).
    rewrite lookup_app_r by lia. by replace (length pre + i - length pre) with i by lia.
Qed.

Lemma steps_under_prefix {B : Type} (pre : list task)
    (s s' : list task * World B) :
  steps s s' -> steps ((pre ++ s.1)%list, s.2) ((pre ++ s'.1)%list, s'.2).
Proof.
  intros H. induction H as [s|s1 s2 s3 H12 IH H23]; [apply steps_refl|].
  eapply steps_step; [exact IH | by apply step_under_prefix].
Qed.

(** Calling the handler for each input in turn is one of the
    interleavings: it takes the pool of called invocations to the pool of
    their outcomes, in order, and to the same world. *)
Theorem sequence_is_an_interleaving {B : Type}
    (generateContent : string -> B -> completion GenerateContentResult * B)
    (inputs : list ToolRequest) (w : World B) :
  steps (Called <$> inputs, w)
        (zip_with Settled inputs (run_all generateContent inputs w).1,
         (run_all generateContent inputs w).2).
Proof.
  revert w. induction inputs as [|input rest IH]; intros w; [apply steps_refl|].
  rewrite run_all_cons. cbn [fst snd zip_with].
  change (Called <$> input :: rest) with (Called input :: (Called <$> rest)).
  eapply steps_trans.
  - eapply steps_step; [eapply steps_step; [apply steps_refl|]|].
    + refine (step_start _ _ 0 input _). reflexivity.
    + refine (step_settle _ _ 0 input (prompt input)
                (generateContent (prompt input) (backend w)).1
                (generateContent (prompt input) (backend w)).2 _).
      reflexivity.
  - cbn [insert list_insert]. rewrite <- handler_split.
    exact (steps_under_prefix
             [Settled input (generateContentOutline generateContent input w).1]
             _ _ (IH (generateContentOutline generateContent input w).2)).
Qed.

(** ** More about start-up *)

Lemma key_falsy_iff (env : gmap string string) :
  truthy (env_get env "GEMINI_API_KEY") = false <->
  env !! "GEMINI_API_KEY" = None \/ env !! "GEMINI_API_KEY" = Some EmptyString.
Proof.
  unfold env_get. destruct (env !! "GEMINI_API_KEY") as [[|c key]|]; cbn.
  - split; [by right | done].
  - split; [done|]. by intros [|].
  - split; [by left | done].
Qed.

(** A key that is the empty string counts as no key: whether the key is
    missing or empty, the check writes the one error line and exits with
    code 1 before anything is set up; no client is built with the empty
    key, no tool or route is registered, and no request is answered. *)
Theorem unusable_key_exits (env : gmap string string) :
  env !! "GEMINI_API_KEY" = None \/ env !! "GEMINI_API_KEY" = Some EmptyString ->
  stderr (boot env)
    = [[VString "Error: GEMINI_API_KEY is not set in the environment."]]
  /\ exit_code (boot env) = Some 1%Z
  /\ client_key (boot env) = None
  /\ tools (boot env) = []
  /\ stack (boot env) = []
  /\ listening (boot env) = None
  /\ forall (B : Type) (mcp_router : Request -> World B -> Response * World B)
       (req : Request) (w : World B),
       serve mcp_router (boot env) req w = None.
Proof.
  intros H. apply key_falsy_iff in H.
  unfold serve. rewrite (boot_without_key env H). cbn. done.
Qed.

Lemma unusable_key_exits_witness :
  let env : gmap string string :=
    {[ "GEMINI_API_KEY" := EmptyString; "PORT" := "8080" ]} in
  (env !! "GEMINI_API_KEY" = None \/ env !! "GEMINI_API_KEY" = Some EmptyString)
  /\ exit_code (boot env) = Some 1%Z
  /\ client_key (boot env) = None.
Proof.
  intros env.
  assert (env !! "GEMINI_API_KEY" = None
          \/ env !! "GEMINI_API_KEY" = Some EmptyString) as H
    by (right; reflexivity).
  split; [exact H|].
  destruct (unusable_key_exits env H) as (_ & E & C & _).
  split; [exact E | exact C].
Defined.

(** A running server listens on the port named by [PORT] when that is set
    and not empty, and on 3000 otherwise; the line it prints on start names
    that same port. *)
Theorem listens_on_chosen_port (env : gmap string string) :
  exit_code (boot env) = None ->
  listening (boot env) =
    Some (match env !! "PORT" with
          | Some (String c p) => VString (String c p)
          | _ => VNumber 3000
          end)
  /\ stdout (boot env) =
      [[VString ("Server is live on port " +:+
                 match env !! "PORT" with
                 | Some (String c p) => String c p
                 | _ => "3000"
                 end)]].
Proof.
  intros Run. apply boot_runs_iff, key_truthy_iff in Run.
  rewrite (boot_with_key env Run). cbn [listening stdout].
  unfold env_get. destruct (env !! "PORT") as [[|c p]|]; by cbn.
Qed.

Lemma listens_on_chosen_port_witness :
  let env : gmap string string :=
    {[ "GEMINI_API_KEY" := "k-123"; "PORT" := "8080" ]} in
  exit_code (boot env) = None
  /\ listening (boot env) = Some (VString "8080")
  /\ listening (boot {[ "GEMINI_API_KEY" := "k-123"; "PORT" := EmptyString ]})
     = Some (VNumber 3000).
Proof.
  intros env.
  assert (exit_code (boot env) = None) as R by reflexivity.
  split; [exact R|]. split.
  - exact (proj1 (listens_on_chosen_port env R)).
  - exact (proj1 (listens_on_chosen_port
                    {[ "GEMINI_API_KEY" := "k-123"; "PORT" := EmptyString ]}
                    eq_refl)).
Defined.

(** A running server was set up with exactly the key of the environment:
    the client holds that key and asks for the model gemini-1.5-flash, one
    tool is registered, [generateContentOutline] with the declared schemas,
    the MCP router is mounted at [/mcp] ahead of the health route, and
    nothing was written to the error console. *)
Theorem running_server_setup (env : gmap string string) :
  exit_code (boot env) = None ->
  exists key,
    env !! "GEMINI_API_KEY" = Some key /\ key <> EmptyString
    /\ client_key (boot env) = Some (VString key)
    /\ model_name (boot env) = Some "gemini-1.5-flash"
    /\ tool_name <$> tools (boot env) = ["generateContentOutline"]
    /\ tool_input <$> tools (boot env) = [input_schema]
    /\ tool_output <$> tools (boot env) = [output_schema]
    /\ stack (boot env) = [Use "/mcp"; Get "/" health_check]
    /\ stderr (boot env) = [].
Proof.
  intros Run. pose proof Run as Run'.
  apply boot_runs_iff in Run as (key & K & N).
  apply boot_runs_iff, key_truthy_iff in Run'.
  exists key. rewrite (boot_with_key env Run'). cbn.
  unfold env_get. rewrite K. done.
Qed.

Lemma running_server_setup_witness :
  let env : gmap string string := {[ "GEMINI_API_KEY" := "k-123" ]} in
  exit_code (boot env) = None
  /\ exists key, env !! "GEMINI_API_KEY" = Some key
                 /\ client_key (boot env) = Some (VString key).
Proof.
  intros env.
  assert (exit_code (boot env) = None) as R by reflexivity.
  split; [exact R|].
  destruct (running_server_setup env R) as (key & K & _ & C & _).
  exists key. split; [exact K | exact C].
Defined.

(** ** More about routing *)

(** On a running server every request at [/mcp] or below it, whatever its
    method, is handed to the MCP router and answered by it; the health
    route does not see it. *)
Theorem mcp_paths_reach_router {B : Type}
    (mcp_router : Request -> World B -> Response * World B)
    (env : gmap string string) (req : Request) (w : World B) :
  exit_code (boot env) = None ->
  (path req = "/mcp" \/ exists rest, path req = "/mcp/" +:+ rest) ->
  serve mcp_router (boot env) req w = Some (mcp_router req w).
Proof.
  intros Run P. apply boot_runs_iff, key_truthy_iff in Run.
  unfold serve. rewrite (boot_with_key env Run). cbn [exit_code listening stack].
  cbn [dispatch]. unfold under_mount.
  destruct P as [->|(rest & ->)].
  - done.
  - change ("/mcp" +:+ "/") with "/mcp/". rewrite prefix_app.
    by rewrite orb_true_r.
Qed.

Lemma mcp_paths_reach_router_witness :
  let env : gmap string string := {[ "GEMINI_API_KEY" := "k-123" ]} in
  let router := fun (req : Request) (w : World unit) =>
    ({| statusCode := 202; res_headers := ∅; body := Some (path req) |}, w) in
  let req := {| method := "POST"; path := "/mcp/tools/call"; headers := ∅ |} in
  exit_code (boot env) = None
  /\ serve router (boot env) req (fresh_world tt)
     = Some ({| statusCode := 202; res_headers := ∅;
                body := Some "/mcp/tools/call" |},
             fresh_world tt).
Proof.
  intros env router req.
  assert (exit_code (boot env) = None) as R by reflexivity.
  split; [exact R|].
  exact (mcp_paths_reach_router router env req (fresh_world tt) R
           (or_intror (ex_intro _ "tools/call" eq_refl))).
Defined.

(** ** More about the input schema *)

(** What the handler is given is decided by [topic] alone: a value yields
    a request exactly when it is an object whose [topic] property is a
    string, and the request carries that string; non-objects, a missing or
    non-string [topic] are turned away, other properties are ignored. *)
Theorem as_request_iff (v : value) (r : ToolRequest) :
  as_request v = Some r <->
  exists fields, v = VObject fields
                 /\ fields !! "topic" = Some (VString (topic r)).
Proof.
  destruct r as [t]. cbn [topic]. split.
  - destruct v as [| | | | | |fields]; try done.
    intros H. exists fields. split; [done|].
    unfold as_request in H. cbn in H. unfold get in H.
    destruct (fields !! "topic") as [[| | | |s| |]|] eqn:E; cbn in H; try done.
    unfold get in H. rewrite lookup_insert_eq in H. cbn in H. congruence.
  - intros (fields & -> & E).
    unfold as_request. cbn. unfold get. rewrite E. cbn.
    unfold get. by rewrite lookup_insert_eq.
Qed.

(** ** Outcomes under interleaving *)

(** However invocations interleave, an invocation that has settled holds
    the input it was called with and either a response object with an
    [outline] string or the backend error; no other outcome appears. *)
Theorem settled_outcomes_ok {B : Type}
    (inputs : list ToolRequest) (w0 : World B)
    (pool : list task) (w : World B)
    (i : nat) (input : ToolRequest) (outcome : completion value) :
  steps (Called <$> inputs, w0) (pool, w) ->
  pool !! i = Some (Settled input outcome) ->
  inputs !! i = Some input
  /\ ((exists T, outcome = Normal (VObject {[ "outline" := VString T ]}))
      \/ outcome = Throws (VError "There was an issue contacting the AI content strategist.")).
Proof.
  intros H Hi. destruct (pool_inv_steps _ _ _ H) as (I & _ & O).
  cbn [fst snd] in *. split.
  - by rewrite <- I, list_lookup_fmap, Hi.
  - rewrite Forall_lookup in O. exact (O i _ Hi).
Qed.

Lemma settled_outcomes_ok_witness :
  steps (Called <$> sample_inputs, fresh_world tt) (sample_pool, sample_world)
  /\ sample_pool !! 0 = Some (Settled {| topic := "tea" |} (Throws backend_error))
  /\ sample_inputs !! 0 = Some {| topic := "tea" |}.
Proof.
  split; [exact sample_run|]. split; [reflexivity|].
  exact (proj1 (settled_outcomes_ok sample_inputs (fresh_world tt)
                  sample_pool sample_world 0 {| topic := "tea" |}
                  (Throws backend_error) sample_run eq_refl)).
Defined.
